(** * Localization service: locale resolution and fallback

    Shallow embedding of [Source/Engine/Localization/Localization.cpp].

    The service keeps the current culture, the current language and the
    list of string tables in use.  [OnLocalizationChanged] rebuilds the
    mapping locale -> tables from the configured references, picks the
    tables of the current language (falling back to the parent culture and
    then to English) and sends the [LocalizationChanged] event.

    State is passed explicitly: every operation takes the service instance
    and returns the new instance together with the events it emitted (log
    lines and event invocations), oldest first. *)

From stdpp Require Import gmap strings list fin_maps.

Open Scope string_scope.
Open Scope list_scope.

#[local] Set Warnings "-clear-no-such-hyp".

(** ** Collaborators declared outside this translation unit *)

(** [CultureInfo] (CultureInfo.h): the members the service reads. *)
Record CultureInfo := mkCultureInfo {
  GetLCID : Z;
  GetParentLCID : Z;
  GetName : string
}.

#[global] Instance CultureInfo_eq_dec : EqDecision CultureInfo.
Proof. solve_decision. Defined.

(** Modelled from the spec: [CultureInfo::operator==] is declared in
    CultureInfo.h, which is not part of this unit.  The comparison is on the
    locale identifier, not on the name string. *)
Definition CultureInfo_eqb (a b : CultureInfo) : bool :=
  bool_decide (GetLCID a = GetLCID b).

(** The two constructors of [CultureInfo] used by the service: from a
    locale identifier and from a locale name.  They are provided by the
    platform's culture database. *)
Class CultureFacility := {
  CultureInfo_of_LCID : Z -> CultureInfo;
  CultureInfo_of_name : string -> CultureInfo
}.

(** [String::HasChars]: the string is not empty. *)
Definition HasChars (s : string) : bool := negb (Nat.eqb (String.length s) 0).

(** [LocalizedStringTable] asset: its identity and the [Locale] field. *)
Record LocalizedStringTable := mkTable {
  AssetID : nat;
  Locale : string
}.

#[global] Instance LocalizedStringTable_eq_dec : EqDecision LocalizedStringTable.
Proof. solve_decision. Defined.

(** What a resolution pass observes of the content system: the configured
    list [LocalizationSettings::LocalizedStringTables] (an
    [AssetReference] whose [Get()] is null is [None]) and the outcome of
    [WaitForLoaded] on each asset: [true] means that the asset is not
    loaded when the wait returns (loading failed or did not finish),
    [false] that it is loaded.  The content may differ from one pass to
    the next, so every operation takes it as an argument. *)
Record Assets := mkAssets {
  SettingsTables : list (option LocalizedStringTable);
  WaitForLoaded : LocalizedStringTable -> bool
}.

(** ** The service *)

Record LocalizationService := mkService {
  CurrentCulture : CultureInfo;
  CurrentLanguage : CultureInfo;
  LocalizedStringTables : list LocalizedStringTable
}.

Inductive Event :=
| LogUsingLocalization (locale : string)
| LogChangingCulture (name : string) (lcid : Z)
| LogChangingLanguage (name : string) (lcid : Z)
| LogChangingLanguageCulture (name : string) (lcid : Z)
| LocalizationChanged.

#[global] Instance Event_eq_dec : EqDecision Event.
Proof. solve_decision. Defined.

(** Number of times the [LocalizationChanged] delegate was invoked. *)
Definition notifications (evs : list Event) : nat :=
  length (filter (λ e, e = LocalizationChanged) evs).

(** *** Dictionary<String, Array<...>> *)

(** [tables[table->Locale].Add(table)]: the bucket is created empty when
    the key is new, and the table is appended to it. *)
Definition AddTable (tables : gmap string (list LocalizedStringTable))
    (table : LocalizedStringTable) : gmap string (list LocalizedStringTable) :=
  <[Locale table := default [] (tables !! Locale table) ++ [table]]> tables.

(** [Dictionary::TryGet] returns a pointer to the value stored for the key,
    or null.  A pointer into the dictionary designates one slot, and a slot
    is identified by its key, so the pointer is modelled by that key. *)
Definition TryGet (tables : gmap string (list LocalizedStringTable))
    (key : string) : option string :=
  if decide (is_Some (tables !! key)) then Some key else None.

(** Reading through a bucket pointer: [table->Get(), table->Count()]. *)
Definition Bucket (tables : gmap string (list LocalizedStringTable))
    (table : string) : list LocalizedStringTable :=
  default [] (tables !! table).

(** Lines 58-65: the loop over the configured references. *)
Definition CollectStep (env : Assets)
    (tables : gmap string (list LocalizedStringTable))
    (e : option LocalizedStringTable) : gmap string (list LocalizedStringTable) :=
  match e with
  | Some table =>
      if negb (WaitForLoaded env table) then AddTable tables table else tables
  | None => tables
  end.

Definition CollectTables (env : Assets) : gmap string (list LocalizedStringTable) :=
  foldl (CollectStep env) ∅ (SettingsTables env).

(** Lines 86-94: the locale of the picked bucket is recovered by scanning
    the dictionary for the entry whose value is the picked one. *)
Definition FindLocale (tables : gmap string (list LocalizedStringTable))
    (table : string) : string :=
  match find (λ e, bool_decide (e.1 = table)) (map_to_list tables) with
  | Some e => e.1
  | None => ""
  end.

Section Service.
Context `{CultureFacility}.

(** Lines 68-81: pick the tables for a language. *)
Definition PickTables (tables : gmap string (list LocalizedStringTable))
    (language : CultureInfo) : option string :=
  match TryGet tables (GetName language) with
  | Some table => Some table
  | None =>
      let parentLanguage := CultureInfo_of_LCID (GetParentLCID language) in
      let table :=
        if HasChars (GetName parentLanguage)
        then TryGet tables (GetName parentLanguage)
        else None in
      match table with
      | Some table => Some table
      | None =>
          let english := CultureInfo_of_name "en" in
          TryGet tables (GetName english)
      end
  end.

(** Name of the parent culture of a language, as line 72 computes it. *)
Definition ParentName (language : CultureInfo) : string :=
  GetName (CultureInfo_of_LCID (GetParentLCID language)).

(** Name under which line 78 looks up the English tables. *)
Definition EnglishName : string := GetName (CultureInfo_of_name "en").

(** Lines 49-101. *)
Definition OnLocalizationChanged (env : Assets) (inst : LocalizationService)
    : LocalizationService * list Event :=
  let cleared : list LocalizedStringTable := [] in
  let tables := CollectTables env in
  match PickTables tables (CurrentLanguage inst) with
  | Some table =>
      let locale := FindLocale tables table in
      (mkService (CurrentCulture inst) (CurrentLanguage inst)
                 (cleared ++ Bucket tables table),
       [LogUsingLocalization locale; LocalizationChanged])
  | None =>
      (mkService (CurrentCulture inst) (CurrentLanguage inst) cleared,
       [LocalizationChanged])
  end.

(** The constructor of the service (lines 20-25). *)
Definition NewService : LocalizationService :=
  mkService (CultureInfo_of_LCID 0) (CultureInfo_of_LCID 0) [].

(** Lines 103-112; [userLocaleName] is [Platform::GetUserLocaleName()]. *)
Definition Init (env : Assets) (userLocaleName : string)
    (inst : LocalizationService) : LocalizationService * list Event :=
  let culture := CultureInfo_of_name userLocaleName in
  OnLocalizationChanged env
    (mkService culture culture (LocalizedStringTables inst)).

(** Lines 39-42. *)
Definition Apply (env : Assets) (inst : LocalizationService)
    : LocalizationService * list Event :=
  OnLocalizationChanged env inst.

Definition GetCurrentCulture (inst : LocalizationService) : CultureInfo :=
  CurrentCulture inst.

Definition GetCurrentLanguage (inst : LocalizationService) : CultureInfo :=
  CurrentLanguage inst.

(** Lines 121-129. *)
Definition SetCurrentCulture (env : Assets) (value : CultureInfo)
    (inst : LocalizationService) : LocalizationService * list Event :=
  if CultureInfo_eqb (CurrentCulture inst) value then (inst, [])
  else
    let r := OnLocalizationChanged env
               (mkService value (CurrentLanguage inst)
                          (LocalizedStringTables inst)) in
    (r.1, LogChangingCulture (GetName value) (GetLCID value) :: r.2).

(** Lines 136-144. *)
Definition SetCurrentLanguage (env : Assets) (value : CultureInfo)
    (inst : LocalizationService) : LocalizationService * list Event :=
  if CultureInfo_eqb (CurrentLanguage inst) value then (inst, [])
  else
    let r := OnLocalizationChanged env
               (mkService (CurrentCulture inst) value
                          (LocalizedStringTables inst)) in
    (r.1, LogChangingLanguage (GetName value) (GetLCID value) :: r.2).

(** Lines 146-155. *)
Definition SetCurrentLanguageCulture (env : Assets) (value : CultureInfo)
    (inst : LocalizationService) : LocalizationService * list Event :=
  if CultureInfo_eqb (CurrentCulture inst) value
     && CultureInfo_eqb (CurrentLanguage inst) value
  then (inst, [])
  else
    let r := OnLocalizationChanged env
               (mkService value value (LocalizedStringTables inst)) in
    (r.1, LogChangingLanguageCulture (GetName value) (GetLCID value) :: r.2).

(** *** Sequences of calls *)

Inductive Call :=
| CallInit (userLocaleName : string)
| CallApply
| CallSetCurrentCulture (value : CultureInfo)
| CallSetCurrentLanguage (value : CultureInfo)
| CallSetCurrentLanguageCulture (value : CultureInfo).

Definition exec (env : Assets) (c : Call) (inst : LocalizationService)
    : LocalizationService * list Event :=
  match c with
  | CallInit name => Init env name inst
  | CallApply => Apply env inst
  | CallSetCurrentCulture v => SetCurrentCulture env v inst
  | CallSetCurrentLanguage v => SetCurrentLanguage env v inst
  | CallSetCurrentLanguageCulture v => SetCurrentLanguageCulture env v inst
  end.

(** Each call sees the content system as it is at the time of the call. *)
Fixpoint run (calls : list (Assets * Call)) (inst : LocalizationService)
    : LocalizationService * list Event :=
  match calls with
  | [] => (inst, [])
  | (env, c) :: rest =>
      let r := exec env c inst in
      let r' := run rest r.1 in
      (r'.1, r.2 ++ r'.2)
  end.

End Service.

(** ** A sample culture database

    Used to evaluate the service on concrete inputs.  Each row gives the
    locale identifier, the identifier of the parent culture and the name;
    the invariant culture (127) has the empty name. *)
Module Sample.

Definition cultures : list CultureInfo :=
  [ mkCultureInfo 127 127 "";
    mkCultureInfo 9 127 "en"; mkCultureInfo 2057 9 "en-GB";
    mkCultureInfo 1033 9 "en-US";
    mkCultureInfo 10 127 "es"; mkCultureInfo 11274 10 "es-AR";
    mkCultureInfo 2058 10 "es-MX";
    mkCultureInfo 12 127 "fr"; mkCultureInfo 1036 12 "fr-FR";
    mkCultureInfo 7 127 "de";
    mkCultureInfo 21 127 "pl"; mkCultureInfo 1045 21 "pl-PL" ].

Definition invariant : CultureInfo := mkCultureInfo 127 127 "".

Definition of_LCID (lcid : Z) : CultureInfo :=
  default (mkCultureInfo lcid 0 "")
          (find (λ c, bool_decide (GetLCID c = lcid)) cultures).

Definition of_name (name : string) : CultureInfo :=
  default invariant (find (λ c, bool_decide (GetName c = name)) cultures).

#[export] Instance facility : CultureFacility :=
  {| CultureInfo_of_LCID := of_LCID; CultureInfo_of_name := of_name |}.

Definition en1 := mkTable 1 "en".
Definition en2 := mkTable 2 "en".
Definition enGB1 := mkTable 3 "en-GB".
Definition enGB2 := mkTable 4 "en-GB".
Definition fr1 := mkTable 5 "fr".
Definition de1 := mkTable 6 "de".
Definition esMX1 := mkTable 7 "es-MX".

Definition all_loaded (t : LocalizedStringTable) : bool := false.

(** Fails exactly on the asset with the given identity. *)
Definition fails_on (id : nat) (t : LocalizedStringTable) : bool :=
  Nat.eqb (AssetID t) id.

Definition env_en_enGB_fr : Assets :=
  mkAssets [Some en1; Some enGB1; Some fr1; Some en2; None; Some enGB2] all_loaded.
Definition env_en_fr : Assets :=
  mkAssets [Some fr1; Some en1; Some en2] all_loaded.
Definition env_fr_de : Assets :=
  mkAssets [Some fr1; Some de1] all_loaded.
Definition env_en_esMX : Assets :=
  mkAssets [Some esMX1; Some en1] all_loaded.

Definition service (language : string) : LocalizationService :=
  mkService (of_name language) (of_name language) [].

End Sample.

(** ** Specification-level notions *)

(** A configured reference contributes a table when it is set and its asset
    finished loading without failure. *)
Definition LoadedRef (env : Assets) (e : option LocalizedStringTable)
    : option LocalizedStringTable :=
  match e with
  | Some table => if WaitForLoaded env table then None else Some table
  | None => None
  end.

(** The successfully loaded tables, in configuration order. *)
Definition LoadedTables (env : Assets) : list LocalizedStringTable :=
  omap (LoadedRef env) (SettingsTables env).

(** The loaded tables carrying a given locale, in configuration order. *)
Definition TablesFor (env : Assets) (locale : string) : list LocalizedStringTable :=
  filter (λ t, Locale t = locale) (LoadedTables env).

(** ** The fallback chain as the specification words it *)

(** The bucket chosen among the buckets of [tables]: the one of the
    language's full name; else, when the parent culture's name is not
    empty, the one of the parent's name; else the one of "en". *)
Definition SpecFallback (tables : gmap string (list LocalizedStringTable))
    (name parent : string) : option (list LocalizedStringTable) :=
  match tables !! name with
  | Some bucket => Some bucket
  | None =>
      match (if decide (parent ≠ "") then tables !! parent else None) with
      | Some bucket => Some bucket
      | None => tables !! "en"
      end
  end.

(** The tables in use are none at all, or they are exactly one bucket of
    the dictionary built from one of the contents [envs], and then they all
    carry that bucket's locale. *)
Definition SingleBucket (envs : list Assets)
    (active : list LocalizedStringTable) : Prop :=
  active = [] ∨
  ∃ env locale, env ∈ envs
                ∧ CollectTables env !! locale = Some active
                ∧ Forall (λ t, Locale t = locale) active.

(** Number of tables held by the dictionary, all buckets together. *)
Definition TotalTables (tables : gmap string (list LocalizedStringTable)) : nat :=
  map_fold (λ _ bucket n, length bucket + n) 0 tables.

(** ** The dictionary of tables *)

Section Pool.
Implicit Types tables : gmap string (list LocalizedStringTable).
Implicit Types table t : LocalizedStringTable.
Implicit Types key locale : string.

Lemma HasChars_spec (s : string) : HasChars s = true ↔ s ≠ "".
Proof. destruct s; unfold HasChars; simpl; split; intros; congruence. Qed.

Lemma TryGet_Some tables key p :
  TryGet tables key = Some p ↔ p = key ∧ is_Some (tables !! key).
Proof. unfold TryGet. case_decide; naive_solver. Qed.

Lemma TryGet_None tables key : TryGet tables key = None ↔ tables !! key = None.
Proof.
  unfold TryGet. case_decide as Hk; split; try done.
  - intros Hn. rewrite Hn in Hk. by destruct Hk.
  - intros _. by apply eq_None_not_Some.
Qed.

Lemma Bucket_lookup tables key b : tables !! key = Some b → Bucket tables key = b.
Proof. unfold Bucket. by intros ->. Qed.

Lemma Bucket_AddTable tables t key :
  Bucket (AddTable tables t) key =
  Bucket tables key ++ (if decide (Locale t = key) then [t] else []).
Proof.
  unfold Bucket, AddTable. case_decide as Hk.
  - subst key. by rewrite lookup_insert_eq.
  - rewrite lookup_insert_ne by done. by rewrite app_nil_r.
Qed.

Lemma AddTable_is_Some tables t key :
  is_Some (AddTable tables t !! key) ↔ is_Some (tables !! key) ∨ Locale t = key.
Proof.
  unfold AddTable. destruct (decide (Locale t = key)) as [->|Hne].
  - rewrite lookup_insert_eq. naive_solver.
  - rewrite lookup_insert_ne by done. naive_solver.
Qed.

Lemma CollectStep_skip env tables e :
  LoadedRef env e = None → CollectStep env tables e = tables.
Proof. destruct e as [t|]; simpl; [|done]. by destruct (WaitForLoaded env t). Qed.

Lemma CollectStep_add env tables e t :
  LoadedRef env e = Some t → CollectStep env tables e = AddTable tables t.
Proof.
  destruct e as [t'|]; simpl; [|done].
  destruct (WaitForLoaded env t'); naive_solver.
Qed.

(** The loop appends, to every bucket, the loaded tables of its locale in
    the order of the list. *)
Lemma Bucket_foldl env l tables key :
  Bucket (foldl (CollectStep env) tables l) key =
  Bucket tables key ++ filter (λ t, Locale t = key) (omap (LoadedRef env) l).
Proof.
  revert tables. induction l as [|e l IH]; intros tables; simpl.
  - by rewrite app_nil_r.
  - rewrite IH. destruct (LoadedRef env e) as [t|] eqn:He.
    + rewrite (CollectStep_add _ _ _ _ He), Bucket_AddTable, filter_cons.
      case_decide; by rewrite <- ?app_assoc.
    + by rewrite (CollectStep_skip _ _ _ He).
Qed.

Lemma foldl_is_Some env l tables key :
  is_Some (foldl (CollectStep env) tables l !! key) ↔
  is_Some (tables !! key) ∨
  filter (λ t, Locale t = key) (omap (LoadedRef env) l) ≠ [].
Proof.
  revert tables. induction l as [|e l IH]; intros tables; simpl.
  - naive_solver.
  - rewrite IH. destruct (LoadedRef env e) as [t|] eqn:He.
    + rewrite (CollectStep_add _ _ _ _ He), AddTable_is_Some, filter_cons.
      case_decide; naive_solver.
    + by rewrite (CollectStep_skip _ _ _ He).
Qed.

(** The dictionary built by a pass, as a function of the content alone. *)
Lemma CollectTables_lookup env locale :
  CollectTables env !! locale =
  match TablesFor env locale with
  | [] => None
  | b => Some b
  end.
Proof.
  pose proof (Bucket_foldl env (SettingsTables env) ∅ locale) as Hb.
  pose proof (foldl_is_Some env (SettingsTables env) ∅ locale) as Hs.
  fold (CollectTables env) in Hb, Hs. fold (LoadedTables env) in Hb, Hs.
  fold (TablesFor env locale) in Hb, Hs.
  unfold Bucket in Hb. rewrite lookup_empty in Hb, Hs. simpl in Hb.
  destruct (CollectTables env !! locale) as [b|] eqn:Hl; simpl in Hb.
  - subst b. destruct (TablesFor env locale); [|done].
    destruct Hs as [[Hs|Hs] _]; [by eexists|by destruct Hs|done].
  - destruct (TablesFor env locale); [done|].
    destruct Hs as [_ Hs]. destruct Hs as [? Hs]; [by right|done].
Qed.

Lemma CollectTables_Some env locale b :
  CollectTables env !! locale = Some b ↔ b = TablesFor env locale ∧ b ≠ [].
Proof.
  rewrite CollectTables_lookup. destruct (TablesFor env locale); naive_solver.
Qed.

Lemma CollectTables_None env locale :
  CollectTables env !! locale = None ↔ TablesFor env locale = [].
Proof.
  rewrite CollectTables_lookup. by destruct (TablesFor env locale).
Qed.

Lemma Bucket_CollectTables env locale :
  Bucket (CollectTables env) locale = TablesFor env locale.
Proof.
  unfold Bucket. rewrite CollectTables_lookup. by destruct (TablesFor env locale).
Qed.

Lemma elem_of_LoadedTables env t :
  t ∈ LoadedTables env ↔ Some t ∈ SettingsTables env ∧ WaitForLoaded env t = false.
Proof.
  unfold LoadedTables. rewrite list_elem_of_omap. split.
  - intros ([t'|] & Hin & Hl); simpl in Hl; [|done].
    destruct (WaitForLoaded env t') eqn:Hw; naive_solver.
  - intros [Hin Hw]. exists (Some t). simpl. by rewrite Hw.
Qed.

Lemma elem_of_TablesFor env locale t :
  t ∈ TablesFor env locale ↔
  Some t ∈ SettingsTables env ∧ WaitForLoaded env t = false ∧ Locale t = locale.
Proof.
  unfold TablesFor. rewrite list_elem_of_filter, elem_of_LoadedTables. naive_solver.
Qed.

(** The scan of lines 87-94 finds the key of the picked slot. *)
Lemma FindLocale_key tables key :
  is_Some (tables !! key) → FindLocale tables key = key.
Proof.
  intros [b Hb]. unfold FindLocale.
  destruct (find _ _) as [e|] eqn:Hf.
  - apply find_some in Hf as [_ He]. by apply bool_decide_eq_true in He.
  - apply elem_of_map_to_list, list_elem_of_In in Hb.
    apply (find_none _ _ Hf) in Hb. simpl in Hb.
    by rewrite bool_decide_eq_false in Hb.
Qed.

End Pool.

(** ** The resolution pass *)

Section Resolution.
Context `{CultureFacility}.
Implicit Types tables : gmap string (list LocalizedStringTable).
Implicit Types inst : LocalizationService.
Implicit Types env : Assets.

Lemma PickTables_cases tables language :
  PickTables tables language =
  match tables !! GetName language with
  | Some _ => Some (GetName language)
  | None =>
      match (if decide (ParentName language ≠ "")
             then tables !! ParentName language else None) with
      | Some _ => Some (ParentName language)
      | None =>
          match tables !! EnglishName with
          | Some _ => Some EnglishName
          | None => None
          end
      end
  end.
Proof.
  unfold PickTables, ParentName, EnglishName.
  set (name := GetName language).
  set (parent := GetName (CultureInfo_of_LCID _)).
  set (en := GetName (CultureInfo_of_name _)).
  assert (Hget : ∀ k, TryGet tables k =
                      match tables !! k with Some _ => Some k | None => None end).
  { intros k. destruct (tables !! k) eqn:Hk.
    - apply TryGet_Some. rewrite Hk. eauto.
    - by apply TryGet_None. }
  rewrite !Hget. destruct (tables !! name); [done|].
  destruct (HasChars parent) eqn:Hp.
  - apply HasChars_spec in Hp. rewrite decide_True by done.
    by destruct (tables !! parent).
  - rewrite decide_False; [done|]. intros Hne. apply HasChars_spec in Hne. congruence.
Qed.

Lemma PickTables_is_Some tables language p :
  PickTables tables language = Some p → is_Some (tables !! p).
Proof.
  rewrite PickTables_cases. intros Hp.
  destruct (tables !! GetName language) eqn:E1; [simplify_eq; by eexists|].
  destruct (decide (ParentName language ≠ "")).
  - destruct (tables !! ParentName language) eqn:E2; [simplify_eq; by eexists|].
    destruct (tables !! EnglishName) eqn:E3; simplify_eq; by eexists.
  - destruct (tables !! EnglishName) eqn:E3; simplify_eq; by eexists.
Qed.

Lemma pass_CurrentCulture env inst :
  CurrentCulture (OnLocalizationChanged env inst).1 = CurrentCulture inst.
Proof. unfold OnLocalizationChanged. by destruct (PickTables _ _). Qed.

Lemma pass_CurrentLanguage env inst :
  CurrentLanguage (OnLocalizationChanged env inst).1 = CurrentLanguage inst.
Proof. unfold OnLocalizationChanged. by destruct (PickTables _ _). Qed.

Lemma pass_tables env inst :
  LocalizedStringTables (OnLocalizationChanged env inst).1 =
  match PickTables (CollectTables env) (CurrentLanguage inst) with
  | Some locale => TablesFor env locale
  | None => []
  end.
Proof.
  unfold OnLocalizationChanged. destruct (PickTables _ _); [|done].
  simpl. apply Bucket_CollectTables.
Qed.

Lemma pass_events env inst :
  (OnLocalizationChanged env inst).2 =
  match PickTables (CollectTables env) (CurrentLanguage inst) with
  | Some locale => [LogUsingLocalization locale; LocalizationChanged]
  | None => [LocalizationChanged]
  end.
Proof.
  unfold OnLocalizationChanged.
  destruct (PickTables _ _) as [p|] eqn:Hp; [|done]. simpl.
  by rewrite (FindLocale_key _ _ (PickTables_is_Some _ _ _ Hp)).
Qed.

Lemma pass_notifications env inst :
  notifications (OnLocalizationChanged env inst).2 = 1.
Proof. rewrite pass_events. by destruct (PickTables _ _). Qed.

(** The outcome of a pass does not depend on the culture or on the
    tables that were in use before it. *)
Lemma pass_only_language env inst inst' :
  CurrentLanguage inst = CurrentLanguage inst' →
  LocalizedStringTables (OnLocalizationChanged env inst).1 =
    LocalizedStringTables (OnLocalizationChanged env inst').1
  ∧ (OnLocalizationChanged env inst).2 = (OnLocalizationChanged env inst').2.
Proof. intros Hl. by rewrite !pass_tables, !pass_events, Hl. Qed.

(** C1: the pass selects the bucket by the three-tier fallback, in order
    and stopping at the first hit: the bucket of the current language's
    full name, else (when the parent culture's name is not empty) the
    bucket of the parent's name, else the bucket of "en"; this holds for
    every dictionary of tables, and the tables of the selected bucket are
    all of [LocalizedStringTables] after the pass (none when no bucket is
    selected). *)
Theorem three_tier_fallback tables env inst :
  EnglishName = "en" →
  (Bucket tables <$> PickTables tables (CurrentLanguage inst)) =
    SpecFallback tables (GetName (CurrentLanguage inst))
                 (ParentName (CurrentLanguage inst))
  ∧ LocalizedStringTables (OnLocalizationChanged env inst).1 =
    default [] (SpecFallback (CollectTables env)
                             (GetName (CurrentLanguage inst))
                             (ParentName (CurrentLanguage inst))).
Proof.
  intros Hen.
  assert (Hpick : ∀ tb, (Bucket tb <$> PickTables tb (CurrentLanguage inst)) =
            SpecFallback tb (GetName (CurrentLanguage inst))
                         (ParentName (CurrentLanguage inst))).
  { intros tb. rewrite PickTables_cases, Hen. unfold SpecFallback.
    destruct (tb !! GetName _) eqn:E1; simpl; [by rewrite (Bucket_lookup _ _ _ E1)|].
    destruct (if decide _ then _ else _) eqn:E2; simpl.
    - case_decide; [|done]. by rewrite (Bucket_lookup _ _ _ E2).
    - destruct (tb !! "en") eqn:E3; simpl; [|done].
      by rewrite (Bucket_lookup _ _ _ E3). }
  split; [apply Hpick|].
  rewrite <- Hpick. unfold OnLocalizationChanged.
  by destruct (PickTables _ _).
Qed.

(** C2: every pass invokes [LocalizationChanged] exactly once, as its
    last event, whether a bucket was selected or not; when none is
    selected the tables in use become empty and the event is still
    sent. *)
Theorem pass_notifies_exactly_once env inst :
  let r := OnLocalizationChanged env inst in
  notifications r.2 = 1
  ∧ (∃ logs, r.2 = logs ++ [LocalizationChanged] ∧ notifications logs = 0)
  ∧ (PickTables (CollectTables env) (CurrentLanguage inst) = None →
     LocalizedStringTables r.1 = [] ∧ r.2 = [LocalizationChanged]).
Proof.
  simpl. split; [apply pass_notifications|]. split.
  - rewrite pass_events. destruct (PickTables _ _) as [p|].
    + by exists [LogUsingLocalization p].
    + by exists [].
  - intros Hn. by rewrite pass_tables, pass_events, Hn.
Qed.

Lemma LoadedRef_Some env e t : LoadedRef env e = Some t → e = Some t.
Proof.
  destruct e as [t'|]; simpl; [|done].
  destruct (WaitForLoaded env t'); naive_solver.
Qed.

Lemma LoadedRef_None env e :
  LoadedRef env e = None ↔ e = None ∨ ∃ t, e = Some t ∧ WaitForLoaded env t = true.
Proof.
  destruct e as [t|]; simpl; [|by split; [left|]].
  destruct (WaitForLoaded env t) eqn:Hw; split; try done.
  - intros _. right. by exists t.
  - intros [?|(t' & [= <-] & Hw')]; congruence.
Qed.

Lemma omap_LoadedRef_sublist env (l : list (option LocalizedStringTable)) :
  sublist (Some <$> omap (LoadedRef env) l) l.
Proof.
  induction l as [|e l IH]; simpl; [constructor|].
  destruct (LoadedRef env e) as [t|] eqn:He; simpl.
  - apply LoadedRef_Some in He as ->. by constructor.
  - by constructor.
Qed.

Lemma TablesFor_sublist env locale :
  sublist (Some <$> TablesFor env locale) (SettingsTables env).
Proof.
  etrans; [|apply (omap_LoadedRef_sublist env)].
  apply fmap_sublist, sublist_filter.
Qed.

Lemma TablesFor_Locale env locale :
  Forall (λ t, Locale t = locale) (TablesFor env locale).
Proof. apply Forall_forall. intros t Ht. by apply elem_of_TablesFor in Ht as (_ & _ & ?). Qed.

Lemma filter_other_locales env locale (others : list (option LocalizedStringTable)) :
  Forall (λ e, ∀ t, e = Some t → Locale t ≠ locale) others →
  filter (λ t, Locale t = locale) (omap (LoadedRef env) others) = [].
Proof.
  induction 1 as [|e l He _ IH]; simpl; [done|].
  destruct (LoadedRef env e) as [t|] eqn:Hl; [|done].
  apply LoadedRef_Some in Hl. rewrite filter_cons, decide_False; auto.
Qed.

(** C3: the dictionary of a pass is built from the configured references
    of that pass alone.  It holds only tables whose reference is set and
    whose loading succeeded, each under its own locale, and it holds all
    of them; a reference that is null or whose loading failed leaves the
    dictionary as if the reference were not configured; and a pass keeps
    nothing of the pass before it, so a reference that failed then is
    tried again.  The pass has no error outcome. *)
Theorem pool_rebuilt_skipping_failures env :
  (∀ locale bucket t,
     CollectTables env !! locale = Some bucket → t ∈ bucket →
     Some t ∈ SettingsTables env ∧ WaitForLoaded env t = false ∧ Locale t = locale)
  ∧ (∀ t, Some t ∈ SettingsTables env → WaitForLoaded env t = false →
       ∃ bucket, CollectTables env !! Locale t = Some bucket ∧ t ∈ bucket)
  ∧ (∀ l1 e l2,
       SettingsTables env = l1 ++ e :: l2 →
       e = None ∨ (∃ t, e = Some t ∧ WaitForLoaded env t = true) →
       CollectTables env = CollectTables (mkAssets (l1 ++ l2) (WaitForLoaded env)))
  ∧ (∀ env0 inst,
       OnLocalizationChanged env (OnLocalizationChanged env0 inst).1 =
       OnLocalizationChanged env inst).
Proof.
  split; [|split; [|split]].
  - intros locale bucket t Hb Ht. apply CollectTables_Some in Hb as [-> _].
    by apply elem_of_TablesFor in Ht.
  - intros t Hin Hw.
    assert (Ht : t ∈ TablesFor env (Locale t)) by by apply elem_of_TablesFor.
    exists (TablesFor env (Locale t)). split; [|done].
    apply CollectTables_Some. split; [done|]. intros Hnil. rewrite Hnil in Ht.
    by apply not_elem_of_nil in Ht.
  - intros l1 e l2 Hl He. apply LoadedRef_None in He.
    unfold CollectTables. rewrite Hl. simpl. rewrite !foldl_app. simpl.
    f_equal. destruct e as [t|]; simpl in *; [|done].
    by destruct (WaitForLoaded env t).
  - intros env0 inst. unfold OnLocalizationChanged at 1 3.
    by rewrite pass_CurrentCulture, pass_CurrentLanguage.
Qed.

(** C7: the tables in use after a pass are the loaded tables of the
    selected locale in the order of the configured list: they form a
    subsequence of that list, and configured entries of other locales,
    however many and wherever they stand, do not change them. *)
Theorem active_tables_keep_configuration_order env inst :
  let active := LocalizedStringTables (OnLocalizationChanged env inst).1 in
  (∀ locale,
     PickTables (CollectTables env) (CurrentLanguage inst) = Some locale →
     active = filter (λ t, Locale t = locale) (LoadedTables env))
  ∧ sublist (Some <$> active) (SettingsTables env)
  ∧ (∀ locale l1 others l2,
       SettingsTables env = l1 ++ others ++ l2 →
       Forall (λ e, ∀ t, e = Some t → Locale t ≠ locale) others →
       CollectTables env !! locale =
       CollectTables (mkAssets (l1 ++ l2) (WaitForLoaded env)) !! locale).
Proof.
  simpl. rewrite pass_tables. split; [|split].
  - by intros locale ->.
  - destruct (PickTables _ _); [apply TablesFor_sublist|]. apply sublist_nil_l.
  - intros locale l1 others l2 Hl Ho. rewrite !CollectTables_lookup.
    unfold TablesFor, LoadedTables. rewrite Hl. simpl.
    rewrite !omap_app, !filter_app.
    by rewrite (filter_other_locales _ _ _ Ho).
Qed.

(** C8: the tables in use after a pass, when there are any, all carry one
    locale, which is the current language's full name, the name of its
    direct parent culture, or "en"; and when neither the language's name
    nor its parent's name has a bucket, the tables in use are those of the
    "en" bucket, whatever other buckets (such as the one of a sibling
    dialect) exist. *)
Theorem never_unrelated_locale env inst :
  EnglishName = "en" →
  let active := LocalizedStringTables (OnLocalizationChanged env inst).1 in
  let name := GetName (CurrentLanguage inst) in
  let parent := ParentName (CurrentLanguage inst) in
  (active ≠ [] →
     ∃ tag, (tag = name ∨ tag = parent ∨ tag = "en")
            ∧ Forall (λ t, Locale t = tag) active)
  ∧ (CollectTables env !! name = None → CollectTables env !! parent = None →
     active = Bucket (CollectTables env) "en").
Proof.
  intros Hen. simpl. rewrite pass_tables, PickTables_cases, Hen. split.
  - intros Hne.
    destruct (CollectTables env !! GetName _);
      [eexists; split; [|apply TablesFor_Locale]; auto|].
    destruct (if decide _ then _ else _);
      [eexists; split; [|apply TablesFor_Locale]; auto|].
    destruct (CollectTables env !! "en"); [|done].
    eexists; split; [|apply TablesFor_Locale]; auto.
  - intros -> Hp. rewrite Hp. rewrite Bucket_CollectTables.
    assert ((if decide (ParentName (CurrentLanguage inst) ≠ "")
             then None else None) = (None : option (list LocalizedStringTable))) as ->
      by by case_decide.
    destruct (CollectTables env !! "en") eqn:E; [done|].
    by apply CollectTables_None in E.
Qed.

(** C9: a pass is a function of the configured content and the current
    language: two instances with the same language get the same tables
    and emit the same events; and running the pass a second time on
    unchanged content gives the same instance and again one
    notification. *)
Theorem resolution_deterministic_idempotent env inst inst' :
  (CurrentLanguage inst = CurrentLanguage inst' →
     LocalizedStringTables (OnLocalizationChanged env inst).1 =
       LocalizedStringTables (OnLocalizationChanged env inst').1
     ∧ (OnLocalizationChanged env inst).2 = (OnLocalizationChanged env inst').2)
  ∧ (let first := OnLocalizationChanged env inst in
     let second := OnLocalizationChanged env first.1 in
     second.1 = first.1
     ∧ notifications first.2 = 1 ∧ notifications second.2 = 1
     ∧ run [(env, CallApply); (env, CallApply)] inst =
       (first.1, first.2 ++ second.2)).
Proof.
  split; [apply pass_only_language|]. simpl.
  assert (Hagain : OnLocalizationChanged env (OnLocalizationChanged env inst).1 =
                   OnLocalizationChanged env inst).
  { unfold OnLocalizationChanged at 1 3.
    by rewrite pass_CurrentCulture, pass_CurrentLanguage. }
  unfold Apply. rewrite !Hagain, app_nil_r.
  repeat split; apply pass_notifications.
Qed.

End Resolution.

(** ** Setters and sequences of calls *)

Section Calls.
Context `{CultureFacility}.
Implicit Types inst : LocalizationService.
Implicit Types env : Assets.
Implicit Types value : CultureInfo.

Lemma CultureInfo_eqb_spec (a b : CultureInfo) :
  CultureInfo_eqb a b = true ↔ GetLCID a = GetLCID b.
Proof. unfold CultureInfo_eqb. apply bool_decide_eq_true. Qed.

Lemma run_app (calls1 calls2 : list (Assets * Call)) inst :
  run (calls1 ++ calls2) inst =
  ((run calls2 (run calls1 inst).1).1,
   (run calls1 inst).2 ++ (run calls2 (run calls1 inst).1).2).
Proof.
  revert inst. induction calls1 as [|[env c] calls1 IH]; intros inst; simpl.
  - by destruct (run calls2 inst).
  - rewrite IH. simpl. by rewrite app_assoc.
Qed.

Lemma SetCurrentCulture_same env value inst :
  GetLCID (CurrentCulture inst) = GetLCID value →
  SetCurrentCulture env value inst = (inst, []).
Proof.
  intros He. unfold SetCurrentCulture.
  by rewrite (proj2 (CultureInfo_eqb_spec _ _) He).
Qed.

Lemma SetCurrentLanguage_same env value inst :
  GetLCID (CurrentLanguage inst) = GetLCID value →
  SetCurrentLanguage env value inst = (inst, []).
Proof.
  intros He. unfold SetCurrentLanguage.
  by rewrite (proj2 (CultureInfo_eqb_spec _ _) He).
Qed.

(** C4: at the instance reached by any sequence of calls, setting the
    language (or the culture) to a value whose locale identifier equals
    the current one's returns the instance unchanged and emits no event,
    so no pass runs and nothing is notified; the name strings are not
    compared.  A sequence of calls with such a call in it behaves as the
    sequence without it. *)
Theorem setter_same_value_is_identity
    (before after : list (Assets * Call)) inst0 env value :
  let inst := (run before inst0).1 in
  (GetLCID (CurrentLanguage inst) = GetLCID value →
     SetCurrentLanguage env value inst = (inst, [])
     ∧ notifications (SetCurrentLanguage env value inst).2 = 0
     ∧ run (before ++ (env, CallSetCurrentLanguage value) :: after) inst0 =
       run (before ++ after) inst0)
  ∧ (GetLCID (CurrentCulture inst) = GetLCID value →
     SetCurrentCulture env value inst = (inst, [])
     ∧ notifications (SetCurrentCulture env value inst).2 = 0
     ∧ run (before ++ (env, CallSetCurrentCulture value) :: after) inst0 =
       run (before ++ after) inst0).
Proof.
  simpl. split; intros He.
  - rewrite !run_app. simpl. by rewrite (SetCurrentLanguage_same _ _ _ He).
  - rewrite !run_app. simpl. by rewrite (SetCurrentCulture_same _ _ _ He).
Qed.

(** C5: [SetCurrentLanguageCulture] leaves the instance untouched and
    emits nothing exactly when the culture and the language both already
    equal the value; otherwise it stores the value in both fields and runs
    one pass, hence one notification.  Either way both fields equal the
    value afterwards. *)
Theorem SetCurrentLanguageCulture_spec env value inst :
  let r := SetCurrentLanguageCulture env value inst in
  let both := GetLCID (CurrentCulture inst) = GetLCID value
              ∧ GetLCID (CurrentLanguage inst) = GetLCID value in
  (r = (inst, []) ↔ both)
  ∧ (r.1 = inst ↔ both)
  ∧ (notifications r.2 = 0 ↔ both)
  ∧ CultureInfo_eqb (CurrentCulture r.1) value = true
  ∧ CultureInfo_eqb (CurrentLanguage r.1) value = true
  ∧ (¬ both →
     CurrentCulture r.1 = value ∧ CurrentLanguage r.1 = value
     ∧ notifications r.2 = 1
     ∧ r = ((OnLocalizationChanged env
               (mkService value value (LocalizedStringTables inst))).1,
            LogChangingLanguageCulture (GetName value) (GetLCID value)
              :: (OnLocalizationChanged env
                    (mkService value value (LocalizedStringTables inst))).2)).
Proof.
  simpl. unfold SetCurrentLanguageCulture.
  destruct (CultureInfo_eqb (CurrentCulture inst) value
            && CultureInfo_eqb (CurrentLanguage inst) value) eqn:Hb.
  - apply andb_true_iff in Hb as [Hc Hl].
    pose proof Hc as Hc'. pose proof Hl as Hl'.
    apply CultureInfo_eqb_spec in Hc', Hl'. simpl. tauto.
  - assert (Hnot : ¬ (GetLCID (CurrentCulture inst) = GetLCID value
                      ∧ GetLCID (CurrentLanguage inst) = GetLCID value)).
    { intros [Hc Hl]. apply CultureInfo_eqb_spec in Hc, Hl.
      by rewrite Hc, Hl in Hb. }
    simpl. rewrite pass_CurrentCulture, pass_CurrentLanguage. simpl.
    assert (Hn : notifications
              (LogChangingLanguageCulture (GetName value) (GetLCID value)
               :: (OnLocalizationChanged env
                     (mkService value value (LocalizedStringTables inst))).2) = 1).
    { unfold notifications. rewrite filter_cons, decide_False by done.
      apply pass_notifications. }
    rewrite Hn. split; [|split; [|split; [|split; [|split]]]].
    + split; [intros ?; simplify_eq|tauto].
    + split; [|tauto]. intros Heq. exfalso. apply Hnot.
      rewrite <- Heq. by rewrite pass_CurrentCulture, pass_CurrentLanguage.
    + split; [done|tauto].
    + by apply CultureInfo_eqb_spec.
    + by apply CultureInfo_eqb_spec.
    + done.
Qed.

(** C10: [SetCurrentCulture] leaves the current language as it was and
    [SetCurrentLanguage] leaves the current culture as it was, for every
    value and every instance. *)
Theorem setters_leave_sibling_field env value inst :
  CurrentLanguage (SetCurrentCulture env value inst).1 = CurrentLanguage inst
  ∧ CurrentCulture (SetCurrentLanguage env value inst).1 = CurrentCulture inst.
Proof.
  unfold SetCurrentCulture, SetCurrentLanguage. split.
  - destruct (CultureInfo_eqb _ _); [done|]. simpl. by rewrite pass_CurrentLanguage.
  - destruct (CultureInfo_eqb _ _); [done|]. simpl. by rewrite pass_CurrentCulture.
Qed.

End Calls.

(** ** The tables in use come from one bucket *)

Section Invariant.
Context `{CultureFacility}.
Implicit Types inst : LocalizationService.
Implicit Types env : Assets.

Lemma SingleBucket_mono (envs envs' : list Assets) active :
  envs ⊆ envs' → SingleBucket envs active → SingleBucket envs' active.
Proof.
  intros Hsub [->|(env & locale & Hin & Hb & Hl)]; [by left|].
  right. exists env, locale. auto.
Qed.

Lemma pass_one_bucket env inst :
  let active := LocalizedStringTables (OnLocalizationChanged env inst).1 in
  active = [] ∨
  ∃ locale, CollectTables env !! locale = Some active
            ∧ Forall (λ t, Locale t = locale) active.
Proof.
  simpl. rewrite pass_tables.
  destruct (PickTables _ _) as [locale|] eqn:Hp; [|by left].
  right. exists locale. split; [|apply TablesFor_Locale].
  apply PickTables_is_Some in Hp as [b Hb]. rewrite Hb.
  by apply CollectTables_Some in Hb as [-> _].
Qed.

Lemma pass_SingleBucket (envs : list Assets) env inst :
  SingleBucket (envs ++ [env])
    (LocalizedStringTables (OnLocalizationChanged env inst).1).
Proof.
  destruct (pass_one_bucket env inst) as [Hnil|(locale & Hb & Hl)]; [by left|].
  right. exists env, locale. split; [|done]. set_solver.
Qed.

Lemma exec_SingleBucket (envs : list Assets) env (c : Call) inst :
  SingleBucket envs (LocalizedStringTables inst) →
  SingleBucket (envs ++ [env]) (LocalizedStringTables (exec env c inst).1).
Proof.
  intros Hinv.
  assert (Hkeep : SingleBucket (envs ++ [env]) (LocalizedStringTables inst))
    by (eapply SingleBucket_mono; [|done]; set_solver).
  destruct c as [name| |v|v|v]; simpl.
  - apply pass_SingleBucket.
  - apply pass_SingleBucket.
  - unfold SetCurrentCulture. destruct (CultureInfo_eqb _ _); [done|].
    apply pass_SingleBucket.
  - unfold SetCurrentLanguage. destruct (CultureInfo_eqb _ _); [done|].
    apply pass_SingleBucket.
  - unfold SetCurrentLanguageCulture. destruct (_ && _); [done|].
    apply pass_SingleBucket.
Qed.

Lemma run_SingleBucket (calls : list (Assets * Call)) (envs : list Assets) inst :
  SingleBucket envs (LocalizedStringTables inst) →
  SingleBucket (envs ++ calls.*1) (LocalizedStringTables (run calls inst).1).
Proof.
  revert envs inst. induction calls as [|[env c] calls IH]; intros envs inst Hinv.
  - simpl. by rewrite app_nil_r.
  - rewrite fmap_cons, cons_middle, app_assoc. simpl.
    apply IH. by apply exec_SingleBucket.
Qed.

(** C6: after a pass the tables in use are none, or they are exactly one
    bucket of the dictionary built by that pass and all carry its locale;
    they are none when the language's name, its parent's name and "en"
    all have no bucket; and after every sequence of calls on a new
    service the tables in use are none or one bucket of the dictionary
    built from the content seen by one of the calls. *)
Theorem active_tables_single_bucket env inst (calls : list (Assets * Call)) :
  EnglishName = "en" →
  let active := LocalizedStringTables (OnLocalizationChanged env inst).1 in
  let tables := CollectTables env in
  (active = [] ∨
   ∃ locale, tables !! locale = Some active
             ∧ Forall (λ t, Locale t = locale) active)
  ∧ (tables !! GetName (CurrentLanguage inst) = None →
     ParentName (CurrentLanguage inst) = ""
       ∨ tables !! ParentName (CurrentLanguage inst) = None →
     tables !! "en" = None →
     active = [])
  ∧ SingleBucket (calls.*1) (LocalizedStringTables (run calls NewService).1).
Proof.
  intros Hen. simpl. split; [apply pass_one_bucket|]. split.
  - intros Hname Hparent Hdef.
    rewrite pass_tables, PickTables_cases, Hen, Hname, Hdef.
    destruct Hparent as [-> | ->]; [done|]. by case_decide.
  - apply (run_SingleBucket calls [] NewService). by left.
Qed.

End Invariant.

(** ** Concrete runs on the sample culture database *)

Section Runs.
#[local] Existing Instance Sample.facility.

(** Tables "en" and "fr" are configured and the language is "en-GB": the
  tables of the parent culture "en" are used. *)
Lemma three_tier_fallback_witness :
LocalizedStringTables
  (OnLocalizationChanged Sample.env_en_fr (Sample.service "en-GB")).1
= [Sample.en1; Sample.en2].
Proof.
pose proof (@three_tier_fallback Sample.facility ∅ Sample.env_en_fr
              (Sample.service "en-GB")) as Hthm.
destruct Hthm as [_ Hpass]; [reflexivity|].
rewrite Hpass. vm_compute. reflexivity.
Defined.

(** Tables "fr" and "de" are configured and the language is "es": nothing
  is used and the event is sent once. *)
Lemma pass_notifies_exactly_once_witness :
notifications
  (OnLocalizationChanged Sample.env_fr_de (Sample.service "es")).2 = 1
∧ LocalizedStringTables
    (OnLocalizationChanged Sample.env_fr_de (Sample.service "es")).1 = []
∧ (OnLocalizationChanged Sample.env_fr_de (Sample.service "es")).2
  = [LocalizationChanged].
Proof.
destruct (@pass_notifies_exactly_once Sample.facility Sample.env_fr_de
            (Sample.service "es")) as (Hone & _ & Hnone).
split; [exact Hone|]. apply Hnone. vm_compute. reflexivity.
Defined.

(** The "fr" table fails to load: the dictionary is the one of the two "en"
    tables alone, the second "en" table is in its bucket, and what is in
    the "en" bucket is configured, loaded and tagged "en". *)
Lemma pool_rebuilt_skipping_failures_witness :
  CollectTables
    (mkAssets [Some Sample.en1; Some Sample.fr1; Some Sample.en2]
              (Sample.fails_on 5))
  = CollectTables
      (mkAssets [Some Sample.en1; Some Sample.en2] (Sample.fails_on 5))
  ∧ (∃ bucket,
       CollectTables
         (mkAssets [Some Sample.en1; Some Sample.fr1; Some Sample.en2]
                   (Sample.fails_on 5)) !! "en" = Some bucket
       ∧ Sample.en2 ∈ bucket)
  ∧ (Some Sample.en1 ∈ [Some Sample.en1; Some Sample.fr1; Some Sample.en2]
     ∧ Sample.fails_on 5 Sample.en1 = false
     ∧ Locale Sample.en1 = "en").
Proof.
  destruct (@pool_rebuilt_skipping_failures Sample.facility
              (mkAssets [Some Sample.en1; Some Sample.fr1; Some Sample.en2]
                        (Sample.fails_on 5))) as (Honly & Hall & Hskip & _).
  split; [|split].
  - apply (Hskip [Some Sample.en1] (Some Sample.fr1) [Some Sample.en2]).
    + reflexivity.
    + right. exists Sample.fr1. split; reflexivity.
  - apply (Hall Sample.en2).
    + simpl. do 2 apply list_elem_of_further. apply list_elem_of_here.
    + reflexivity.
  - apply (Honly "en" [Sample.en1; Sample.en2] Sample.en1).
    + vm_compute. reflexivity.
    + apply list_elem_of_here.
Defined.

(** After [Init] with "en-GB", setting the language to a value with the
  identifier of "en-GB" and another name string changes nothing. *)
Lemma setter_same_value_is_identity_witness :
SetCurrentLanguage Sample.env_en_fr (mkCultureInfo 2057 9 "EN-gb")
  (run [(Sample.env_en_fr, CallInit "en-GB")] NewService).1
= ((run [(Sample.env_en_fr, CallInit "en-GB")] NewService).1, []).
Proof.
destruct (@setter_same_value_is_identity Sample.facility
            [(Sample.env_en_fr, CallInit "en-GB")] [] NewService
            Sample.env_en_fr (mkCultureInfo 2057 9 "EN-gb"))
  as [Hlanguage _].
destruct Hlanguage as [Hsame _]; [reflexivity|]. exact Hsame.
Defined.

(** Culture and language are "en"; setting both to "fr" stores "fr" in both
  fields and notifies once, while setting both to "en" does nothing. *)
Lemma SetCurrentLanguageCulture_spec_witness :
(CurrentCulture
   (SetCurrentLanguageCulture Sample.env_en_fr (Sample.of_name "fr")
      (Sample.service "en")).1 = Sample.of_name "fr"
 ∧ CurrentLanguage
     (SetCurrentLanguageCulture Sample.env_en_fr (Sample.of_name "fr")
        (Sample.service "en")).1 = Sample.of_name "fr"
 ∧ notifications
     (SetCurrentLanguageCulture Sample.env_en_fr (Sample.of_name "fr")
        (Sample.service "en")).2 = 1)
∧ SetCurrentLanguageCulture Sample.env_en_fr (Sample.of_name "en")
    (Sample.service "en") = (Sample.service "en", []).
Proof.
split.
- destruct (@SetCurrentLanguageCulture_spec Sample.facility Sample.env_en_fr
              (Sample.of_name "fr") (Sample.service "en"))
    as (_ & _ & _ & _ & _ & Hset).
  destruct Hset as (Hc & Hl & Hn & _).
  + intros [Hculture _]. vm_compute in Hculture. discriminate Hculture.
  + auto.
- destruct (@SetCurrentLanguageCulture_spec Sample.facility Sample.env_en_fr
              (Sample.of_name "en") (Sample.service "en"))
    as ([_ Hnoop] & _).
  apply Hnoop. split; reflexivity.
Defined.

(** Tables "fr" and "de" are configured and the language is "es", whose
  parent culture has the empty name: no table is in use. *)
Lemma active_tables_single_bucket_witness :
LocalizedStringTables
  (OnLocalizationChanged Sample.env_fr_de (Sample.service "es")).1 = [].
Proof.
destruct (@active_tables_single_bucket Sample.facility Sample.env_fr_de
            (Sample.service "es") []) as (_ & Hnone & _); [reflexivity|].
apply Hnone.
- vm_compute. reflexivity.
- left. reflexivity.
- vm_compute. reflexivity.
Defined.

(** Two "en-GB" tables are configured with "en", "fr" and a null reference
    between them: they are used in their configured order, and the bucket
    is the same as without the entries in between. *)
Lemma active_tables_keep_configuration_order_witness :
  LocalizedStringTables
    (OnLocalizationChanged Sample.env_en_enGB_fr (Sample.service "en-GB")).1
  = [Sample.enGB1; Sample.enGB2]
  ∧ CollectTables Sample.env_en_enGB_fr !! "en-GB"
    = CollectTables
        (mkAssets [Some Sample.en1; Some Sample.enGB1; Some Sample.enGB2]
                  Sample.all_loaded) !! "en-GB".
Proof.
  destruct (@active_tables_keep_configuration_order Sample.facility
              Sample.env_en_enGB_fr (Sample.service "en-GB"))
    as (Hfilter & _ & Hothers).
  split.
  - rewrite (Hfilter "en-GB"); vm_compute; reflexivity.
  - apply (Hothers "en-GB" [Some Sample.en1; Some Sample.enGB1]
                   [Some Sample.fr1; Some Sample.en2; None]
                   [Some Sample.enGB2]).
    + reflexivity.
    + repeat constructor; intros t Ht; try discriminate Ht;
        injection Ht as <-; vm_compute; discriminate.
Defined.

(** Tables "es-MX" and "en" are configured and the language is "es-AR",
    whose parent "es" has no table: the "en" table is used, not "es-MX". *)
Lemma never_unrelated_locale_witness :
  LocalizedStringTables
    (OnLocalizationChanged Sample.env_en_esMX (Sample.service "es-AR")).1
  = [Sample.en1]
  ∧ ∃ tag, (tag = "es-AR" ∨ tag = "es" ∨ tag = "en")
           ∧ Forall (λ t, Locale t = tag)
               (LocalizedStringTables
                  (OnLocalizationChanged Sample.env_en_esMX
                     (Sample.service "es-AR")).1).
Proof.
  destruct (@never_unrelated_locale Sample.facility Sample.env_en_esMX
              (Sample.service "es-AR")) as (Htag & Hfall); [reflexivity|].
  assert (Hactive : LocalizedStringTables
            (OnLocalizationChanged Sample.env_en_esMX (Sample.service "es-AR")).1
          = [Sample.en1])
    by (rewrite Hfall; vm_compute; reflexivity).
  split; [exact Hactive|].
  apply Htag. rewrite Hactive. discriminate.
Defined.

(** Two instances with language "en-GB" that differ in culture and in the
  tables previously in use get the same tables from a pass. *)
Lemma resolution_deterministic_idempotent_witness :
LocalizedStringTables
  (OnLocalizationChanged Sample.env_en_enGB_fr (Sample.service "en-GB")).1
= LocalizedStringTables
    (OnLocalizationChanged Sample.env_en_enGB_fr
       (mkService (Sample.of_name "fr") (Sample.of_name "en-GB")
                  [Sample.fr1])).1.
Proof.
destruct (@resolution_deterministic_idempotent Sample.facility
            Sample.env_en_enGB_fr (Sample.service "en-GB")
            (mkService (Sample.of_name "fr") (Sample.of_name "en-GB")
                       [Sample.fr1])) as (Hsame & _).
destruct Hsame as [Htables _]; [reflexivity|]. exact Htables.
Defined.

End Runs.

(** ** More on the dictionary and on the pass *)

Section Dictionary.
Context `{CultureFacility}.
Implicit Types tables : gmap string (list LocalizedStringTable).
Implicit Types inst : LocalizationService.
Implicit Types env : Assets.

Lemma TotalTables_AddTable tables (t : LocalizedStringTable) :
  TotalTables (AddTable tables t) = S (TotalTables tables).
Proof.
  unfold TotalTables, AddTable.
  assert (Hcomm : ∀ (m : gmap string (list LocalizedStringTable))
                    (j1 j2 : string) (z1 z2 : list LocalizedStringTable) (y : nat),
             j1 ≠ j2 → m !! j1 = Some z1 → m !! j2 = Some z2 →
             length z1 + (length z2 + y) = length z2 + (length z1 + y))
    by (intros; lia).
  destruct (tables !! Locale t) as [b|] eqn:Hb; simpl.
  - rewrite <- insert_delete_eq.
    rewrite map_fold_insert_L; [|by eauto|apply lookup_delete_eq].
    rewrite (map_fold_delete_L _ _ (Locale t) b tables); [|by eauto|done].
    rewrite length_app. simpl. lia.
  - rewrite map_fold_insert_L; [done|by eauto|done].
Qed.

Lemma TotalTables_foldl env (l : list (option LocalizedStringTable)) tables :
  TotalTables (foldl (CollectStep env) tables l) =
  TotalTables tables + length (omap (LoadedRef env) l).
Proof.
  revert tables. induction l as [|e l IH]; intros tables;
    cbn [foldl omap list_omap length]; [lia|].
  rewrite IH. destruct (LoadedRef env e) as [t|] eqn:He.
  - rewrite (CollectStep_add _ _ _ _ He), TotalTables_AddTable.
    cbn [length]. lia.
  - by rewrite (CollectStep_skip _ _ _ He).
Qed.

(** X1: the dictionary holds as many tables as there are configured references
    that are set and loaded: the loop of lines 58-65 neither drops nor
    repeats a loaded reference, whatever the locales are. *)
Theorem dictionary_holds_every_loaded_reference_once env :
  TotalTables (CollectTables env) = length (LoadedTables env).
Proof.
  unfold CollectTables, LoadedTables. rewrite TotalTables_foldl.
  unfold TotalTables. by rewrite map_fold_empty.
Qed.

(** X2: a pass either finds no bucket, then leaves no table in use and only
    sends the event; or it logs one line before the event, and then at
    least one table is in use, the tables in use are a whole bucket of the
    dictionary, and the locale named in the log line is the key of that
    bucket and the locale of every table in use (lines 84-97). *)
Theorem log_names_locale_in_use env inst :
  (LocalizedStringTables (OnLocalizationChanged env inst).1 = []
   ∧ (OnLocalizationChanged env inst).2 = [LocalizationChanged])
  ∨ (∃ locale,
       (OnLocalizationChanged env inst).2 =
         [LogUsingLocalization locale; LocalizationChanged]
       ∧ LocalizedStringTables (OnLocalizationChanged env inst).1 ≠ []
       ∧ CollectTables env !! locale =
         Some (LocalizedStringTables (OnLocalizationChanged env inst).1)
       ∧ Forall (λ t, Locale t = locale)
           (LocalizedStringTables (OnLocalizationChanged env inst).1)).
Proof.
  rewrite pass_tables, pass_events.
  destruct (PickTables _ _) as [locale|] eqn:Hp; [right|by left].
  exists locale. apply PickTables_is_Some in Hp as [b Hb].
  pose proof Hb as Hb'. apply CollectTables_Some in Hb' as [-> Hne].
  repeat split; try done. apply TablesFor_Locale.
Qed.

(** X3: when no configured reference is both set and loaded (in particular
    when none is configured), the dictionary is empty and a pass leaves no
    table in use and sends only the event, whatever the language is and
    whatever tables were in use before. *)
Theorem nothing_loaded_clears_tables env inst :
  (∀ t, Some t ∈ SettingsTables env → WaitForLoaded env t = true) →
  CollectTables env = ∅
  ∧ OnLocalizationChanged env inst =
    (mkService (CurrentCulture inst) (CurrentLanguage inst) [],
     [LocalizationChanged]).
Proof.
  intros Hnone.
  assert (Hempty : CollectTables env = ∅).
  { apply map_eq. intros locale. rewrite lookup_empty.
    apply CollectTables_None.
    destruct (TablesFor env locale) as [|t l] eqn:Ht; [done|].
    assert (Hin : t ∈ TablesFor env locale) by (rewrite Ht; apply list_elem_of_here).
    apply elem_of_TablesFor in Hin as (Hin & Hw & _).
    apply Hnone in Hin. congruence. }
  split; [done|].
  unfold OnLocalizationChanged. rewrite Hempty.
  assert (Hpick : PickTables ∅ (CurrentLanguage inst) = None).
  { rewrite PickTables_cases. rewrite !lookup_empty. by case_decide. }
  by rewrite Hpick.
Qed.

(** X4: a configured reference that is set and loaded and whose locale is the
    name of the current language is in use after a pass, and then every
    table in use has that locale: tables of the parent culture or of
    English are not mixed in. *)
Theorem loaded_table_of_language_is_used env inst (t : LocalizedStringTable) :
  Some t ∈ SettingsTables env →
  WaitForLoaded env t = false →
  Locale t = GetName (CurrentLanguage inst) →
  t ∈ LocalizedStringTables (OnLocalizationChanged env inst).1
  ∧ Forall (λ u, Locale u = GetName (CurrentLanguage inst))
      (LocalizedStringTables (OnLocalizationChanged env inst).1).
Proof.
  intros Hin Hw Hl.
  assert (Ht : t ∈ TablesFor env (GetName (CurrentLanguage inst)))
    by by apply elem_of_TablesFor.
  assert (Hb : CollectTables env !! GetName (CurrentLanguage inst) =
               Some (TablesFor env (GetName (CurrentLanguage inst)))).
  { apply CollectTables_Some. split; [done|]. intros Hnil. rewrite Hnil in Ht.
    by apply not_elem_of_nil in Ht. }
  rewrite pass_tables, PickTables_cases, Hb.
  split; [done|apply TablesFor_Locale].
Qed.

End Dictionary.

(** ** More on the calls of the interface *)

Section Interface.
Context `{CultureFacility}.
Implicit Types inst : LocalizationService.
Implicit Types env : Assets.
Implicit Types value : CultureInfo.

(** Normal form of a pass: the culture and the tables in use before the
    pass have no influence on the tables and the events it produces. *)
Lemma pass_service env (culture language : CultureInfo)
    (before : list LocalizedStringTable) :
  OnLocalizationChanged env (mkService culture language before) =
  (mkService culture language
     (LocalizedStringTables
        (OnLocalizationChanged env (mkService language language [])).1),
   (OnLocalizationChanged env (mkService language language [])).2).
Proof. unfold OnLocalizationChanged. simpl. by destruct (PickTables _ _). Qed.

Lemma pass_again env inst :
  LocalizedStringTables
    (OnLocalizationChanged env (OnLocalizationChanged env inst).1).1 =
  LocalizedStringTables (OnLocalizationChanged env inst).1.
Proof. apply pass_only_language, pass_CurrentLanguage. Qed.

Lemma notifications_app (evs1 evs2 : list Event) :
  notifications (evs1 ++ evs2) = notifications evs1 + notifications evs2.
Proof. unfold notifications. by rewrite filter_app, length_app. Qed.

Lemma pass_events_last env inst :
  ∃ logs, (OnLocalizationChanged env inst).2 = logs ++ [LocalizationChanged]
          ∧ notifications logs = 0.
Proof.
  rewrite pass_events. destruct (PickTables _ _) as [p|].
  - by exists [LogUsingLocalization p].
  - by exists [].
Qed.

(** Every call either returns at once, or runs one pass on some instance
    after writing at most one log line. *)
Lemma exec_cases env (c : Call) inst :
  exec env c inst = (inst, [])
  ∨ ∃ inst0 logs,
      exec env c inst =
        ((OnLocalizationChanged env inst0).1,
         logs ++ (OnLocalizationChanged env inst0).2)
      ∧ notifications logs = 0.
Proof.
  destruct c as [name| |v|v|v]; simpl.
  - right. unfold Init.
    exists (mkService (CultureInfo_of_name name) (CultureInfo_of_name name)
                      (LocalizedStringTables inst)), [].
    split; [|done]. simpl. by destruct (OnLocalizationChanged _ _).
  - right. unfold Apply. exists inst, [].
    split; [|done]. simpl. by destruct (OnLocalizationChanged _ _).
  - unfold SetCurrentCulture. destruct (CultureInfo_eqb _ _); [by left|].
    right. by eexists _, [_].
  - unfold SetCurrentLanguage. destruct (CultureInfo_eqb _ _); [by left|].
    right. by eexists _, [_].
  - unfold SetCurrentLanguageCulture. destruct (_ && _); [by left|].
    right. by eexists _, [_].
Qed.

(** X5: [Init] (lines 103-112) overwrites the whole state: its outcome does not
    depend on the instance it starts from; culture and language are both
    the culture of the user's locale name; the event is sent once; and
    setting culture and language to that culture afterwards does nothing. *)
Theorem Init_overwrites_state env env' (name : string) inst inst' :
  Init env name inst = Init env name inst'
  ∧ CurrentCulture (Init env name inst).1 = CultureInfo_of_name name
  ∧ CurrentLanguage (Init env name inst).1 = CultureInfo_of_name name
  ∧ notifications (Init env name inst).2 = 1
  ∧ SetCurrentLanguageCulture env' (CultureInfo_of_name name)
      (Init env name inst).1 = ((Init env name inst).1, []).
Proof.
  unfold Init. split; [|split; [|split; [|split]]].
  - by rewrite (pass_service env _ _ (LocalizedStringTables inst)),
               (pass_service env _ _ (LocalizedStringTables inst')).
  - by rewrite pass_CurrentCulture.
  - by rewrite pass_CurrentLanguage.
  - apply pass_notifications.
  - unfold SetCurrentLanguageCulture, CultureInfo_eqb.
    rewrite pass_CurrentCulture, pass_CurrentLanguage. simpl.
    by rewrite bool_decide_eq_true_2.
Qed.

(** X6: setting a value twice is setting it once: after any of the three
    setters, the same setter with the same value returns at once, without
    a pass and without events; and the getter then returns a culture equal
    to the value that was set. *)
Theorem setters_are_idempotent env env' value inst :
  SetCurrentCulture env' value (SetCurrentCulture env value inst).1
    = ((SetCurrentCulture env value inst).1, [])
  ∧ SetCurrentLanguage env' value (SetCurrentLanguage env value inst).1
    = ((SetCurrentLanguage env value inst).1, [])
  ∧ SetCurrentLanguageCulture env' value
      (SetCurrentLanguageCulture env value inst).1
    = ((SetCurrentLanguageCulture env value inst).1, [])
  ∧ CultureInfo_eqb (GetCurrentCulture (SetCurrentCulture env value inst).1)
      value = true
  ∧ CultureInfo_eqb (GetCurrentLanguage (SetCurrentLanguage env value inst).1)
      value = true.
Proof.
  assert (Hc : GetLCID (CurrentCulture (SetCurrentCulture env value inst).1)
               = GetLCID value).
  { unfold SetCurrentCulture.
    destruct (CultureInfo_eqb _ _) eqn:He; simpl.
    - by apply CultureInfo_eqb_spec.
    - by rewrite pass_CurrentCulture. }
  assert (Hl : GetLCID (CurrentLanguage (SetCurrentLanguage env value inst).1)
               = GetLCID value).
  { unfold SetCurrentLanguage.
    destruct (CultureInfo_eqb _ _) eqn:He; simpl.
    - by apply CultureInfo_eqb_spec.
    - by rewrite pass_CurrentLanguage. }
  split; [by apply SetCurrentCulture_same|].
  split; [by apply SetCurrentLanguage_same|].
  split; [|split; by apply CultureInfo_eqb_spec].
  assert (Hb : CultureInfo_eqb
                 (CurrentCulture (SetCurrentLanguageCulture env value inst).1) value
               && CultureInfo_eqb
                    (CurrentLanguage (SetCurrentLanguageCulture env value inst).1)
                    value = true).
  { unfold SetCurrentLanguageCulture.
    destruct (CultureInfo_eqb (CurrentCulture inst) value
              && CultureInfo_eqb (CurrentLanguage inst) value) eqn:He;
      simpl; [done|].
    rewrite pass_CurrentCulture, pass_CurrentLanguage. simpl.
    apply andb_true_iff. split; by apply CultureInfo_eqb_spec. }
  unfold SetCurrentLanguageCulture at 1. by rewrite Hb.
Qed.

Lemma CultureInfo_eqb_false (a b : CultureInfo) :
  CultureInfo_eqb a b = false ↔ GetLCID a ≠ GetLCID b.
Proof. unfold CultureInfo_eqb. apply bool_decide_eq_false. Qed.

Lemma SetCurrentCulture_changed env value inst :
  GetLCID (CurrentCulture inst) ≠ GetLCID value →
  SetCurrentCulture env value inst =
  (mkService value (CurrentLanguage inst)
     (LocalizedStringTables (OnLocalizationChanged env inst).1),
   LogChangingCulture (GetName value) (GetLCID value)
     :: (OnLocalizationChanged env inst).2).
Proof.
  intros Hne. unfold SetCurrentCulture.
  rewrite (proj2 (CultureInfo_eqb_false _ _) Hne).
  destruct inst as [c l ts]. simpl.
  by rewrite (pass_service env value l ts), (pass_service env c l ts).
Qed.

Lemma SetCurrentLanguage_changed env value inst :
  GetLCID (CurrentLanguage inst) ≠ GetLCID value →
  SetCurrentLanguage env value inst =
  (mkService (CurrentCulture inst) value
     (LocalizedStringTables
        (OnLocalizationChanged env (mkService value value [])).1),
   LogChangingLanguage (GetName value) (GetLCID value)
     :: (OnLocalizationChanged env (mkService value value [])).2).
Proof.
  intros Hne. unfold SetCurrentLanguage.
  rewrite (proj2 (CultureInfo_eqb_false _ _) Hne).
  destruct inst as [c l ts]. simpl.
  by rewrite (pass_service env c value ts).
Qed.

(** X7: a change of culture selects the tables again, and selects what a plain
    pass on the unchanged instance selects: the culture has no part in the
    choice of tables.  A change of language gives the tables and the pass
    events of a fresh service in that language: neither the language
    before nor the tables in use before matter. *)
Theorem changed_setters_select_by_language env value inst :
  (GetLCID (CurrentCulture inst) ≠ GetLCID value →
     SetCurrentCulture env value inst =
     (mkService value (CurrentLanguage inst)
        (LocalizedStringTables (OnLocalizationChanged env inst).1),
      LogChangingCulture (GetName value) (GetLCID value)
        :: (OnLocalizationChanged env inst).2))
  ∧ (GetLCID (CurrentLanguage inst) ≠ GetLCID value →
     SetCurrentLanguage env value inst =
     (mkService (CurrentCulture inst) value
        (LocalizedStringTables
           (OnLocalizationChanged env (mkService value value [])).1),
      LogChangingLanguage (GetName value) (GetLCID value)
        :: (OnLocalizationChanged env (mkService value value [])).2)).
Proof.
  split; [apply SetCurrentCulture_changed|apply SetCurrentLanguage_changed].
Qed.

Lemma SetCurrentCulture_fst env value inst :
  (SetCurrentCulture env value inst).1 =
  if CultureInfo_eqb (CurrentCulture inst) value then inst
  else mkService value (CurrentLanguage inst)
         (LocalizedStringTables
            (OnLocalizationChanged env
               (mkService (CurrentLanguage inst) (CurrentLanguage inst) [])).1).
Proof.
  unfold SetCurrentCulture. destruct (CultureInfo_eqb _ _); [done|].
  cbn [fst]. by rewrite pass_service.
Qed.

Lemma SetCurrentLanguage_fst env value inst :
  (SetCurrentLanguage env value inst).1 =
  if CultureInfo_eqb (CurrentLanguage inst) value then inst
  else mkService (CurrentCulture inst) value
         (LocalizedStringTables
            (OnLocalizationChanged env (mkService value value [])).1).
Proof.
  unfold SetCurrentLanguage. destruct (CultureInfo_eqb _ _); [done|].
  cbn [fst]. by rewrite pass_service.
Qed.

Lemma SetCurrentCulture_notifications env value inst :
  notifications (SetCurrentCulture env value inst).2 =
  if CultureInfo_eqb (CurrentCulture inst) value then 0 else 1.
Proof.
  unfold SetCurrentCulture. destruct (CultureInfo_eqb _ _); [done|].
  cbn [snd]. change (?x :: ?l) with ([x] ++ l).
  by rewrite notifications_app, pass_notifications.
Qed.

Lemma SetCurrentLanguage_notifications env value inst :
  notifications (SetCurrentLanguage env value inst).2 =
  if CultureInfo_eqb (CurrentLanguage inst) value then 0 else 1.
Proof.
  unfold SetCurrentLanguage. destruct (CultureInfo_eqb _ _); [done|].
  cbn [snd]. change (?x :: ?l) with ([x] ++ l).
  by rewrite notifications_app, pass_notifications.
Qed.

Lemma SetCurrentLanguageCulture_notifications env value inst :
  notifications (SetCurrentLanguageCulture env value inst).2 =
  if CultureInfo_eqb (CurrentCulture inst) value
     && CultureInfo_eqb (CurrentLanguage inst) value then 0 else 1.
Proof.
  unfold SetCurrentLanguageCulture. destruct (_ && _); [done|].
  cbn [snd]. change (?x :: ?l) with ([x] ++ l).
  by rewrite notifications_app, pass_notifications.
Qed.

(** X8: setting the culture and setting the language commute: on the same
    content, both orders end in the same instance and send the same number
    of notifications. *)
Theorem culture_and_language_setters_commute env (a b : CultureInfo) inst :
  (run [(env, CallSetCurrentCulture a); (env, CallSetCurrentLanguage b)] inst).1
  = (run [(env, CallSetCurrentLanguage b); (env, CallSetCurrentCulture a)] inst).1
  ∧ notifications
      (run [(env, CallSetCurrentCulture a); (env, CallSetCurrentLanguage b)] inst).2
    = notifications
        (run [(env, CallSetCurrentLanguage b); (env, CallSetCurrentCulture a)] inst).2.
Proof.
  destruct inst as [c l ts]. cbn [run exec fst snd]. split.
  - rewrite !SetCurrentCulture_fst, !SetCurrentLanguage_fst. simpl.
    destruct (CultureInfo_eqb c a) eqn:Hc, (CultureInfo_eqb l b) eqn:Hl;
      simpl; rewrite ?Hc, ?Hl; done.
  - rewrite !notifications_app.
    rewrite !SetCurrentCulture_notifications, !SetCurrentLanguage_notifications.
    rewrite !SetCurrentCulture_fst, !SetCurrentLanguage_fst. simpl.
    destruct (CultureInfo_eqb c a) eqn:Hc, (CultureInfo_eqb l b) eqn:Hl;
      simpl; rewrite ?Hc, ?Hl; done.
Qed.

(** X9: when culture and language both differ from the value, the combined
    setter ends in the same instance as the two single setters called one
    after the other, with one notification where they send two. *)
Theorem combined_setter_saves_a_pass env value inst :
  GetLCID (CurrentCulture inst) ≠ GetLCID value →
  GetLCID (CurrentLanguage inst) ≠ GetLCID value →
  (run [(env, CallSetCurrentCulture value);
        (env, CallSetCurrentLanguage value)] inst).1
  = (SetCurrentLanguageCulture env value inst).1
  ∧ notifications
      (run [(env, CallSetCurrentCulture value);
            (env, CallSetCurrentLanguage value)] inst).2 = 2
  ∧ notifications (SetCurrentLanguageCulture env value inst).2 = 1.
Proof.
  intros Hc Hl. apply CultureInfo_eqb_false in Hc, Hl.
  destruct inst as [c l ts]. simpl in Hc, Hl. cbn [run exec fst snd].
  split; [|split].
  - rewrite SetCurrentLanguage_fst, SetCurrentCulture_fst. simpl.
    rewrite Hc. simpl. rewrite Hl.
    unfold SetCurrentLanguageCulture. simpl. rewrite Hc. simpl.
    by rewrite (pass_service env value value ts).
  - rewrite !notifications_app.
    rewrite SetCurrentCulture_notifications, SetCurrentLanguage_notifications.
    rewrite SetCurrentCulture_fst. simpl. rewrite Hc. simpl. by rewrite Hl.
  - rewrite SetCurrentLanguageCulture_notifications. simpl. by rewrite Hc.
Qed.

(** X10: every call of the interface either returns at once, leaving the
    instance as it was and emitting nothing, or it ends with the event,
    sent once and after every log line, and then the tables in use are
    those that a pass selects for the language the instance now has. *)
Theorem call_returns_at_once_or_notifies_last env (c : Call) inst :
  exec env c inst = (inst, [])
  ∨ ((∃ logs, (exec env c inst).2 = logs ++ [LocalizationChanged]
              ∧ notifications logs = 0)
     ∧ LocalizedStringTables (exec env c inst).1 =
       LocalizedStringTables
         (OnLocalizationChanged env (exec env c inst).1).1).
Proof.
  destruct (exec_cases env c inst) as [?|(inst0 & logs & -> & Hlogs)]; [by left|].
  right. cbn [fst snd]. split; [|by rewrite pass_again].
  destruct (pass_events_last env inst0) as (logs' & -> & Hlogs').
  exists (logs ++ logs'). rewrite app_assoc. split; [done|].
  rewrite notifications_app. lia.
Qed.

Lemma call_cases_sync env (c : Call) inst :
  exec env c inst = (inst, [])
  ∨ LocalizedStringTables (exec env c inst).1 =
    LocalizedStringTables (OnLocalizationChanged env (exec env c inst).1).1.
Proof.
  destruct (exec_cases env c inst) as [?|(inst0 & logs & -> & _)]; [by left|].
  right. cbn [fst]. by rewrite pass_again.
Qed.

Lemma exec_notifications env (c : Call) inst :
  (notifications (exec env c inst).2 ≤ 1)%nat.
Proof.
  destruct (exec_cases env c inst) as [->|(inst0 & logs & -> & Hlogs)];
    cbn [snd]; [unfold notifications; simpl; lia|].
  rewrite notifications_app, pass_notifications. lia.
Qed.

(** X11: a sequence of calls sends at most one notification per call. *)
Theorem at_most_one_notification_per_call (calls : list (Assets * Call)) inst :
  (notifications (run calls inst).2 ≤ length calls)%nat.
Proof.
  revert inst. induction calls as [|[env c] calls IH]; intros inst.
  - unfold notifications. simpl. lia.
  - cbn [run fst snd length]. rewrite notifications_app.
    pose proof (exec_notifications env c inst).
    pose proof (IH (exec env c inst).1). lia.
Qed.

(** X12: after any sequence of calls, either every call returned at once and
    nothing changed, or the tables in use are those that a pass selects,
    for the language the instance now has, from the content seen by one
    of the calls: the tables in use never lag behind the language. *)
Theorem tables_follow_current_language (calls : list (Assets * Call)) inst :
  run calls inst = (inst, [])
  ∨ ∃ env, env ∈ calls.*1
           ∧ LocalizedStringTables (run calls inst).1 =
             LocalizedStringTables
               (OnLocalizationChanged env (run calls inst).1).1.
Proof.
  revert inst. induction calls as [|[env c] calls IH]; intros inst; [by left|].
  cbn [run fst snd]. rewrite fmap_cons. cbn [fst].
  destruct (IH (exec env c inst).1) as [Hrest|(env' & Hin & Hsync)].
  - rewrite Hrest. cbn [fst snd]. rewrite app_nil_r.
    destruct (call_cases_sync env c inst) as [Hnoop|Hsync].
    + left. by rewrite Hnoop.
    + right. exists env. split; [apply list_elem_of_here|done].
  - right. exists env'. split; [by apply list_elem_of_further|done].
Qed.

(** X13: the language changes only through [SetCurrentLanguage],
    [SetCurrentLanguageCulture] and [Init], and the culture only through
    [SetCurrentCulture], [SetCurrentLanguageCulture] and [Init]: sequences
    of the other calls, on any content, keep them. *)
Theorem other_calls_keep_language_and_culture
    (calls : list (Assets * Call)) inst :
  (Forall (λ ec, ec.2 = CallApply ∨ ∃ v, ec.2 = CallSetCurrentCulture v) calls →
     CurrentLanguage (run calls inst).1 = CurrentLanguage inst)
  ∧ (Forall (λ ec, ec.2 = CallApply ∨ ∃ v, ec.2 = CallSetCurrentLanguage v) calls →
     CurrentCulture (run calls inst).1 = CurrentCulture inst).
Proof.
  split; intros Hcalls; revert inst;
    induction Hcalls as [|[env c] calls Hc _ IH]; intros inst; try done;
    cbn [run fst]; rewrite IH; simpl in Hc;
    destruct Hc as [->|[v ->]]; cbn [exec].
  - apply pass_CurrentLanguage.
  - rewrite SetCurrentCulture_fst. by destruct (CultureInfo_eqb _ _).
  - apply pass_CurrentCulture.
  - rewrite SetCurrentLanguage_fst. by destruct (CultureInfo_eqb _ _).
Qed.

End Interface.

(** ** More concrete runs on the sample culture database *)

Section MoreRuns.
#[local] Existing Instance Sample.facility.

(** A null reference and a "fr" table that fails to load are configured
    while the "fr" table is in use: the pass leaves no table in use. *)
Lemma nothing_loaded_clears_tables_witness :
  OnLocalizationChanged (mkAssets [None; Some Sample.fr1] (Sample.fails_on 5))
    (mkService (Sample.of_name "fr") (Sample.of_name "fr") [Sample.fr1])
  = (mkService (Sample.of_name "fr") (Sample.of_name "fr") [],
     [LocalizationChanged]).
Proof.
  apply (@nothing_loaded_clears_tables Sample.facility
           (mkAssets [None; Some Sample.fr1] (Sample.fails_on 5))
           (mkService (Sample.of_name "fr") (Sample.of_name "fr") [Sample.fr1])).
  intros t Ht. simpl in Ht.
  apply list_elem_of_In in Ht.
  destruct Ht as [Ht|[Ht|[]]]; [discriminate Ht|].
  injection Ht as <-. reflexivity.
Defined.

(** The second "en-GB" table is configured and loaded and the language is
    "en-GB": it is in use, with tables of "en-GB" only. *)
Lemma loaded_table_of_language_is_used_witness :
  Sample.enGB2 ∈ LocalizedStringTables
    (OnLocalizationChanged Sample.env_en_enGB_fr (Sample.service "en-GB")).1
  ∧ Forall (λ u, Locale u = "en-GB")
      (LocalizedStringTables
         (OnLocalizationChanged Sample.env_en_enGB_fr
            (Sample.service "en-GB")).1).
Proof.
  apply (@loaded_table_of_language_is_used Sample.facility
           Sample.env_en_enGB_fr (Sample.service "en-GB") Sample.enGB2).
  - apply list_elem_of_In. unfold Sample.env_en_enGB_fr. simpl.
    do 5 right. left. reflexivity.
  - reflexivity.
  - reflexivity.
Defined.

(** Culture and language are "en" and tables "fr" and "en" are configured:
    setting the culture to "fr" keeps the "en" tables, setting the
    language to "fr" switches to the "fr" table. *)
Lemma changed_setters_select_by_language_witness :
  SetCurrentCulture Sample.env_en_fr (Sample.of_name "fr") (Sample.service "en")
  = (mkService (Sample.of_name "fr") (Sample.of_name "en")
       [Sample.en1; Sample.en2],
     [LogChangingCulture "fr" 12; LogUsingLocalization "en";
      LocalizationChanged])
  ∧ SetCurrentLanguage Sample.env_en_fr (Sample.of_name "fr")
      (Sample.service "en")
    = (mkService (Sample.of_name "en") (Sample.of_name "fr") [Sample.fr1],
       [LogChangingLanguage "fr" 12; LogUsingLocalization "fr";
        LocalizationChanged]).
Proof.
  destruct (@changed_setters_select_by_language Sample.facility
              Sample.env_en_fr (Sample.of_name "fr") (Sample.service "en"))
    as [Hculture Hlanguage].
  split.
  - rewrite Hculture; [vm_compute; reflexivity|].
    intros Heq. vm_compute in Heq. discriminate Heq.
  - rewrite Hlanguage; [vm_compute; reflexivity|].
    intros Heq. vm_compute in Heq. discriminate Heq.
Defined.

(** Culture and language are "en": setting both to "fr" with the combined
    setter gives the instance of the two single setters, with one
    notification instead of two. *)
Lemma combined_setter_saves_a_pass_witness :
  (run [(Sample.env_en_fr, CallSetCurrentCulture (Sample.of_name "fr"));
        (Sample.env_en_fr, CallSetCurrentLanguage (Sample.of_name "fr"))]
       (Sample.service "en")).1
  = (SetCurrentLanguageCulture Sample.env_en_fr (Sample.of_name "fr")
       (Sample.service "en")).1
  ∧ notifications
      (run [(Sample.env_en_fr, CallSetCurrentCulture (Sample.of_name "fr"));
            (Sample.env_en_fr, CallSetCurrentLanguage (Sample.of_name "fr"))]
           (Sample.service "en")).2 = 2
  ∧ notifications
      (SetCurrentLanguageCulture Sample.env_en_fr (Sample.of_name "fr")
         (Sample.service "en")).2 = 1.
Proof.
  apply (@combined_setter_saves_a_pass Sample.facility Sample.env_en_fr
           (Sample.of_name "fr") (Sample.service "en")).
  - intros Heq. vm_compute in Heq. discriminate Heq.
  - intros Heq. vm_compute in Heq. discriminate Heq.
Defined.

(** [Apply] followed by a change of culture to "de" keeps the language
    "en-GB". *)
Lemma other_calls_keep_language_and_culture_witness :
  CurrentLanguage
    (run [(Sample.env_en_fr, CallApply);
          (Sample.env_fr_de, CallSetCurrentCulture (Sample.of_name "de"))]
         (Sample.service "en-GB")).1
  = Sample.of_name "en-GB".
Proof.
  destruct (@other_calls_keep_language_and_culture Sample.facility
              [(Sample.env_en_fr, CallApply);
               (Sample.env_fr_de, CallSetCurrentCulture (Sample.of_name "de"))]
              (Sample.service "en-GB")) as [Hlanguage _].
  rewrite Hlanguage; [reflexivity|].
  constructor; [left; reflexivity|].
  constructor; [right; eexists; reflexivity|]. constructor.
Defined.

End MoreRuns.
